(** * Retirement planner (davidapp.py): arithmetic core

    A shallow embedding of the calculation code of [davidapp.py] and the
    properties of its specification.

    Numbers.  Python [int] values are [Z].  Python [float] values are
    embedded twice.

    - The exact embedding ([sip_simulation], [future_value], ...) idealises
      floats as exact rationals [Q], compared with [==]: operator order,
      true division and the [ZeroDivisionError] of [/] and [**] are kept,
      rounding and overflow are abstracted away.  Where a property depends
      on how large a rounding error can be, its theorem is stated on the
      ranges the page's widgets declare and leaves a margin that rounding
      cannot cross; no exact identity between differently-computed floats
      is claimed of the code.

    - The binary64 embedding ([sip_simulation64], [future_value64]) runs
      the same expressions on the kernel's IEEE 754 binary64 numbers, with
      the special cases and the [OverflowError] of Python's [float ** int].
      It is used to evaluate the code at concrete inputs, where rounding
      decides the outcome.

    Exceptions are explicit: a computation returns [Ok v] or [Raise e]. *)

From Stdlib Require Import Floats.
From Stdlib Require Import ZArith QArith Qabs Qminmax Qpower Qround.
From Stdlib Require Import List Bool String Lia Lqa.
Import ListNotations.

Local Open Scope Q_scope.

(** ** Exceptions *)

Inductive exn : Set :=
| ZeroDivisionError
| OverflowError.

Inductive result (A : Type) : Type :=
| Ok (a : A)
| Raise (e : exn).

Arguments Ok {A} a.
Arguments Raise {A} e.

Definition bind {A B : Type} (m : result A) (k : A -> result B) : result B :=
  match m with
  | Ok a => k a
  | Raise e => Raise e
  end.

Notation "x <- m ;; k" := (bind m (fun x => k))
  (at level 61, m at next level, right associativity).

(** ** The Python operations the program uses *)

Module Py.

(** [a / b] on numbers: true division. *)
Definition truediv (a b : Q) : result Q :=
  if Qeq_bool b 0 then Raise ZeroDivisionError else Ok (a / b).

(** [b ** e] for a float [b] and an int [e]; a zero base with a negative
    exponent raises.  The power is exact: the [OverflowError] of a power
    beyond the binary64 range is in [Py64.pow]. *)
Definition pow (b : Q) (e : Z) : result Q :=
  if (e <? 0)%Z && Qeq_bool b 0 then Raise ZeroDivisionError else Ok (b ^ e).

(** [range(lo, hi)], empty when [hi <= lo]. *)
Definition range (lo hi : Z) : list Z :=
  map (fun k => (lo + Z.of_nat k)%Z) (seq 0 (Z.to_nat (hi - lo))).

(** [min(a, b)]: the first argument unless the second is smaller. *)
Definition min (a b : Q) : Q :=
  if Qle_bool a b then a else b.

(** [len(xs)] *)
Definition len {A : Type} (xs : list A) : Z := Z.of_nat (List.length xs).

(** [for x in xs: s = body(s, x)] *)
Fixpoint for_each {S A : Type} (xs : list A) (body : S -> A -> result S)
         (s : S) : result S :=
  match xs with
  | [] => Ok s
  | x :: xs' => s' <- body s x ;; for_each xs' body s'
  end.

(** [[f(x) for x in xs]] *)
Fixpoint comprehension {A B : Type} (f : A -> result B) (xs : list A)
  : result (list B) :=
  match xs with
  | [] => Ok []
  | x :: xs' => y <- f x ;; ys <- comprehension f xs' ;; Ok (y :: ys)
  end.

End Py.

(** ** SIP simulation (lines 7-14) *)

Definition sip_simulation (monthly_investment annual_return_rate : Q)
           (years : Z) : result (Q * Q) :=
  let total_invested := monthly_investment * 12 * inject_Z years in
  let future_value := 0 in
  q <- Py.truediv annual_return_rate 12 ;;
  monthly_rate <- Py.truediv q 100 ;;
  let months := (years * 12)%Z in
  future_value <-
    Py.for_each (Py.range 1 (months + 1))
      (fun future_value i =>
         p <- Py.pow (1 + monthly_rate) (months - i + 1) ;;
         Ok (future_value + monthly_investment * p))
      future_value ;;
  Ok (total_invested, future_value).

(** ** Tax benefit (lines 17-21) *)

Definition tax_benefits (investment_amount : Q) : Q * Q :=
  let sec_80c_limit := 150000 in
  let eligible := Py.min investment_amount sec_80c_limit in
  let tax_saved := eligible * (3 # 10) in
  (eligible, tax_saved).

(** ** Post-retirement income (lines 24-27) *)

Definition post_retirement_income_models (total_corpus annuity_rate swp_amount : Q)
  : result (Q * Q) :=
  annual_annuity <- Py.truediv (total_corpus * annuity_rate) 100 ;;
  years_swp <- Py.truediv total_corpus (swp_amount * 12) ;;
  Ok (annual_annuity, years_swp).

(** ** The page script: sidebar inputs and summary (lines 33-45) *)

(** The five sidebar widgets.  The ages are ints; the monthly investment
    and the two rates are numbers. *)
Record Sidebar : Type := {
  age : Z;
  retirement_age : Z;
  monthly_investment : Q;
  estimated_return_equity : Q;
  estimated_return_traditional : Q
}.

(** The bounds the widgets declare (lines 35-39): each widget clamps its
    own value, no widget looks at another. *)
Definition sidebar_in_range (s : Sidebar) : Prop :=
  (18 <= age s <= 60)%Z /\
  (50 <= retirement_age s <= 70)%Z /\
  500 <= monthly_investment s /\
  (5 <= estimated_return_equity s /\ estimated_return_equity s <= 15) /\
  (4 <= estimated_return_traditional s /\ estimated_return_traditional s <= 9).

(** Line 42. *)
Definition months (s : Sidebar) : Z :=
  ((retirement_age s - age s) * 12)%Z.

(** Line 43. *)
Definition total_investment (s : Sidebar) : Q :=
  monthly_investment s * inject_Z (months s).

(** The expression of lines 44 and 45,
    [m * (((1 + rate/100/12) ** months - 1) / (rate/100/12))],
    evaluated left to right. *)
Definition future_value (m rate : Q) (months : Z) : result Q :=
  a <- Py.truediv rate 100 ;;
  b <- Py.truediv a 12 ;;
  p <- Py.pow (1 + b) months ;;
  c <- Py.truediv rate 100 ;;
  d <- Py.truediv c 12 ;;
  q <- Py.truediv (p - 1) d ;;
  Ok (m * q).

Definition future_value_equity (s : Sidebar) : result Q :=
  future_value (monthly_investment s) (estimated_return_equity s) (months s).

Definition future_value_traditional (s : Sidebar) : result Q :=
  future_value (monthly_investment s) (estimated_return_traditional s) (months s).

(** ** Year-by-year growth (lines 53-60) *)

(** Line 54. *)
Definition years (s : Sidebar) : list Z :=
  Py.range (age s) (retirement_age s + 1).

(** The element expression of lines 55 and 56, for the index [i]. *)
Definition growth_value (m rate : Q) (i : Z) : result Q :=
  a <- Py.truediv rate 100 ;;
  b <- Py.truediv a 12 ;;
  p <- Py.pow (1 + b) (i * 12) ;;
  c <- Py.truediv rate 100 ;;
  d <- Py.truediv c 12 ;;
  q <- Py.truediv (p - 1) d ;;
  Ok (m * q).

Definition equity_growth (s : Sidebar) : result (list Q) :=
  Py.comprehension
    (growth_value (monthly_investment s) (estimated_return_equity s))
    (Py.range 0 (Py.len (years s))).

Definition traditional_growth (s : Sidebar) : result (list Q) :=
  Py.comprehension
    (growth_value (monthly_investment s) (estimated_return_traditional s))
    (Py.range 0 (Py.len (years s))).

(** A row of [df_growth]: Year, Equity-Based, Traditional. *)
Definition GrowthRow : Type := (Z * Q * Q)%type.

(** Lines 53-60: the frame built from the three columns when the checkbox
    is ticked, the empty frame otherwise. *)
Definition df_growth (s : Sidebar) (checkbox : bool) : result (list GrowthRow) :=
  if checkbox then
    eg <- equity_growth s ;;
    tg <- traditional_growth s ;;
    Ok (combine (combine (years s) eg) tg)
  else Ok [].

(** ** Comparison of investment options (lines 64-70) *)

Record ComparisonRow : Type := {
  Option_name : string;
  Expected_Returns : Q;
  Risk_Level : string;
  Liquidity : string
}.

(** The dict literal [data], column by column. *)
Record ComparisonData : Type := {
  col_Option : list string;
  col_Expected_Returns : list Q;
  col_Risk_Level : list string;
  col_Liquidity : list string
}.

Definition data : ComparisonData := {|
  col_Option :=
    ["Equity Mutual Fund"; "Public Provident Fund (PPF)";
     "Employees Provident Fund (EPF)"; "National Pension Scheme (NPS)"]%string;
  col_Expected_Returns := [12; 71 # 10; 81 # 10; 9];
  col_Risk_Level := ["High"; "Low"; "Low"; "Moderate"]%string;
  col_Liquidity := ["High (after 1 year)"; "Low"; "Low"; "Moderate"]%string
|}.

(** [pd.DataFrame(data)]: one row per index of the columns. *)
Definition DataFrame (d : ComparisonData) : list ComparisonRow :=
  map (fun '(o, e, r, l) =>
         {| Option_name := o; Expected_Returns := e;
            Risk_Level := r; Liquidity := l |})
      (combine (combine (combine (col_Option d) (col_Expected_Returns d))
                        (col_Risk_Level d))
               (col_Liquidity d)).

(** The table does not read the sidebar: it is the same for every input. *)
Definition df_comparison (_ : Sidebar) : list ComparisonRow := DataFrame data.

(** ** The other panels' widgets *)

(** SIP panel, lines 75-77: monthly amount, annual rate, duration. *)
Definition sip_inputs_in_range (monthly rate : Q) (years : Z) : Prop :=
  (1000 <= monthly /\ monthly <= 100000) /\
  (1 <= rate /\ rate <= 20) /\
  (1 <= years <= 40)%Z.

(** Tax panel, line 86. *)
Definition tax_input_in_range (investment : Q) : Prop :=
  0 <= investment /\ investment <= 500000.

(** Income panel, lines 93-95: corpus, annuity rate, monthly withdrawal. *)
Definition income_inputs_in_range (corpus annuity_rate swp_amount : Q) : Prop :=
  (100000 <= corpus /\ corpus <= 100000000) /\
  (1 <= annuity_rate /\ annuity_rate <= 10) /\
  (1000 <= swp_amount /\ swp_amount <= 100000).

(** ** Excel export (lines 102-112) *)

Inductive Sheet : Type :=
| SummarySheet (rows : list (string * Q))
| GrowthSheet (rows : list GrowthRow)
| ComparisonSheet (rows : list ComparisonRow).

(** The workbook: the sheets in the order they are written, by name. *)
Definition Workbook : Type := list (string * Sheet).

(** [df.empty] *)
Definition empty {A : Type} (df : list A) : bool :=
  match df with
  | [] => true
  | _ :: _ => false
  end.

(** What a script run writes when the download button is pressed: the
    summary of lines 43-45, the growth frame unless it is empty, the
    comparison table. *)
Definition excel_summary (s : Sidebar) (checkbox : bool) : result Workbook :=
  fe <- future_value_equity s ;;
  ft <- future_value_traditional s ;;
  growth <- df_growth s checkbox ;;
  let summary :=
    [("Summary"%string,
      SummarySheet [("Total Investment"%string, total_investment s);
                    ("Equity FV"%string, fe);
                    ("Traditional FV"%string, ft)])] in
  let growth_sheet :=
    if negb (empty growth)
    then [("Growth Over Time"%string, GrowthSheet growth)]
    else [] in
  Ok (summary ++ growth_sheet ++
      [("Option Comparison"%string, ComparisonSheet (df_comparison s))]).

(** ** The same code on binary64 numbers *)

(** Python reads a decimal literal as the nearest binary64 number; so do
    the float literals below. *)
Set Warnings "-inexact-float".

Module Py64.

(** [float(z)], the conversion applied to an [int] operand that meets a
    [float]: the nearest binary64 number (ties to even), [OverflowError]
    when [z] is beyond the binary64 range. *)
Definition of_int (z : Z) : result float :=
  match binary_normalize prec emax z 0 false with
  | S754_infinity _ => Raise OverflowError
  | x => Ok (SF2Prim x)
  end.

(** [a / b] on floats. *)
Definition truediv (a b : float) : result float :=
  if PrimFloat.eqb b 0 then Raise ZeroDivisionError else Ok (a / b)%float.

(** [a * z], [a / z], [z + a] and [a - z] for a float [a] and an int [z]. *)
Definition mul_int (a : float) (z : Z) : result float :=
  b <- of_int z ;; Ok (a * b)%float.

Definition truediv_int (a : float) (z : Z) : result float :=
  b <- of_int z ;; truediv a b.

Definition int_add (z : Z) (a : float) : result float :=
  b <- of_int z ;; Ok (b + a)%float.

Definition sub_int (a : float) (z : Z) : result float :=
  b <- of_int z ;; Ok (a - b)%float.

(** The platform's [pow] for a finite base other than 0 and 1 and a
    non-zero integer exponent, taken to be correctly rounded: the exact
    power [(m * 2^ex)^e], rounded once. *)
Definition libm_pow (b : float) (e : Z) : spec_float :=
  match Prim2SF b with
  | S754_finite s m ex =>
      let sign := s && Z.odd e in
      if (0 <=? e)%Z
      then binary_normalize prec emax
             (if sign then - Z.pos m ^ e else Z.pos m ^ e) (ex * e) false
      else SFdiv prec emax (S754_finite sign 1 0)
             (S754_finite false (Z.to_pos (Z.pos m ^ (- e))) (ex * - e))
  | x => x
  end.

(** [b ** e] for a float [b] and an int [e] (below 2^53 in size, so that
    its conversion is exact), with the cases Python settles before it calls
    the platform, in its order: a zero exponent gives 1.0; a NaN base gives
    NaN; an infinite base gives an infinity or a zero; a zero base raises
    for a negative exponent; a base of 1.0 gives 1.0 and -1.0 gives plus or
    minus 1.0.  A power that overflows raises [OverflowError]. *)
Definition pow (b : float) (e : Z) : result float :=
  _ <- of_int e ;;
  if (e =? 0)%Z then Ok 1%float
  else if PrimFloat.is_nan b then Ok b
  else if PrimFloat.is_infinity b then
    Ok (if (0 <? e)%Z
        then (if Z.odd e then b else PrimFloat.abs b)
        else (if Z.odd e && PrimFloat.ltb b 0 then PrimFloat.opp 0 else 0)%float)
  else if PrimFloat.eqb b 0 then
    if (e <? 0)%Z then Raise ZeroDivisionError
    else Ok (if Z.odd e then b else 0%float)
  else if PrimFloat.eqb (PrimFloat.abs b) 1 then
    Ok (if PrimFloat.ltb b 0 && Z.odd e then (-1)%float else 1%float)
  else
    match libm_pow b e with
    | S754_infinity _ => Raise OverflowError
    | x => Ok (SF2Prim x)
    end.

End Py64.

(** Lines 7-14 on binary64 numbers.  [monthly_investment] and
    [annual_return_rate] are floats (an int argument below 2^53 behaves as
    the float of the same value), [years] is an int. *)
Definition sip_simulation64 (monthly_investment annual_return_rate : float)
           (years : Z) : result (float * float) :=
  t <- Py64.mul_int monthly_investment 12 ;;
  total_invested <- Py64.mul_int t years ;;
  let future_value := 0%float in
  q <- Py64.truediv_int annual_return_rate 12 ;;
  monthly_rate <- Py64.truediv_int q 100 ;;
  let months := (years * 12)%Z in
  future_value <-
    Py.for_each (Py.range 1 (months + 1))
      (fun future_value i =>
         b <- Py64.int_add 1 monthly_rate ;;
         p <- Py64.pow b (months - i + 1) ;;
         Ok (future_value + monthly_investment * p)%float)
      future_value ;;
  Ok (total_invested, future_value).

(** The expression of lines 44 and 45 on binary64 numbers. *)
Definition future_value64 (m rate : float) (months : Z) : result float :=
  a <- Py64.truediv_int rate 100 ;;
  b <- Py64.truediv_int a 12 ;;
  b1 <- Py64.int_add 1 b ;;
  p <- Py64.pow b1 months ;;
  p1 <- Py64.sub_int p 1 ;;
  c <- Py64.truediv_int rate 100 ;;
  d <- Py64.truediv_int c 12 ;;
  q <- Py64.truediv p1 d ;;
  Ok (m * q)%float.

(** ** The formulas of the specification *)

(** The ordinary-annuity closed form [m * ((1+r)^n - 1) / r] with
    [r = rate/12/100], as the specification words it. *)
Definition closed_form (m rate : Q) (n : Z) : Q :=
  let r := rate / 12 / 100 in
  m * ((1 + r) ^ n - 1) / r.

(** The annuity-due closed form [m * (1+r) * ((1+r)^n - 1) / r]. *)
Definition annuity_due (m rate : Q) (n : Z) : Q :=
  let r := rate / 12 / 100 in
  m * (1 + r) * ((1 + r) ^ n - 1) / r.

(** Agreement of two values within a relative tolerance. *)
Definition agree_within (tol x y : Q) : Prop :=
  Qabs (x - y) <= tol * Qmax (Qabs x) (Qabs y).

(** The iterative and the closed-form computation both return, and their
    future values agree within [tol]. *)
Definition paths_agree (tol m rate : Q) (years : Z) : Prop :=
  exists t v c,
    sip_simulation m rate years = Ok (t, v) /\
    future_value m rate (12 * years) = Ok c /\
    agree_within tol v c.


(** The statement of C2 for the loop, on the numbers the code computes
    with: at a zero rate the future value returned equals the total. *)
Definition zero_rate_returns_total64 (m : float) (y : Z) : Prop :=
  exists t v,
    sip_simulation64 m 0 y = Ok (t, v) /\
    PrimFloat.eqb v t = true.



(** The statement of C8: the growth frame has [retirement_age - age + 1]
    rows and its last row carries the two headline future values. *)
Definition growth_series_claim (s : Sidebar) : Prop :=
  exists rows fe ft,
    df_growth s true = Ok rows /\
    Z.of_nat (List.length rows) = (retirement_age s - age s + 1)%Z /\
    future_value_equity s = Ok fe /\
    future_value_traditional s = Ok ft /\
    nth_error rows (Nat.pred (List.length rows)) = Some (retirement_age s, fe, ft).

(** The statement of C7, with the tolerance left open: the 5000 / 12
    percent / 20 years run returns a total of 1,200,000 and a future
    value within [tol] of 4,949,800. *)
Definition scenario_5000_12_20 (tol : Q) : Prop :=
  exists t v,
    sip_simulation 5000 12 20 = Ok (t, v) /\
    t == 1200000 /\
    Qabs (v - 4949800) <= tol.

(** ** Sample inputs *)

(** The sidebar as the page first shows it: the widgets' default values. *)
Definition default_sidebar : Sidebar := {|
  age := 30;
  retirement_age := 60;
  monthly_investment := 5000;
  estimated_return_equity := 12;
  estimated_return_traditional := 7
|}.

(** A sidebar every widget accepts, with the retirement age below the
    current age. *)
Definition late_sidebar : Sidebar := {|
  age := 60;
  retirement_age := 50;
  monthly_investment := 5000;
  estimated_return_equity := 12;
  estimated_return_traditional := 7
|}.

(** ** Basic facts about the Python operations *)

Lemma truediv_ok (a b : Q) : ~ b == 0 -> Py.truediv a b = Ok (a / b).
Proof.
  intros Hb. unfold Py.truediv.
  destruct (Qeq_bool b 0) eqn:E; [|reflexivity].
  apply Qeq_bool_eq in E. contradiction.
Qed.

Lemma truediv_zero (a b : Q) : b == 0 -> Py.truediv a b = Raise ZeroDivisionError.
Proof.
  intros Hb. unfold Py.truediv.
  apply Qeq_bool_iff in Hb. now rewrite Hb.
Qed.

Lemma pow_nonneg (b : Q) (e : Z) : (0 <= e)%Z -> Py.pow b e = Ok (b ^ e).
Proof.
  intros He. unfold Py.pow.
  replace (e <? 0)%Z with false; [reflexivity|].
  symmetry. apply Z.ltb_ge. exact He.
Qed.

Lemma pow_nonzero (b : Q) (e : Z) : ~ b == 0 -> Py.pow b e = Ok (b ^ e).
Proof.
  intros Hb. unfold Py.pow.
  destruct (Qeq_bool b 0) eqn:E.
  - apply Qeq_bool_eq in E. contradiction.
  - now rewrite andb_false_r.
Qed.

Lemma range_length (lo hi : Z) : List.length (Py.range lo hi) = Z.to_nat (hi - lo).
Proof. unfold Py.range. now rewrite length_map, length_seq. Qed.

Lemma Qpower_succ (q : Q) (n : Z) : (0 <= n)%Z -> q ^ (n + 1) == q ^ n * q.
Proof.
  intros Hn. rewrite Qpower_plus' by lia. now rewrite Qpower_1_r.
Qed.

(** Bernoulli's inequality, the reason compounding never loses money. *)
Lemma bernoulli (r : Q) (n : nat) :
  0 <= r -> 1 + inject_Z (Z.of_nat n) * r <= (1 + r) ^ Z.of_nat n.
Proof.
  intros Hr. induction n as [|n IH].
  - simpl. change (inject_Z 0) with 0. lra.
  - rewrite Nat2Z.inj_succ. unfold Z.succ.
    rewrite Qpower_succ by lia.
    rewrite inject_Z_plus.
    assert (Hn : 0 <= inject_Z (Z.of_nat n)).
    { change 0 with (inject_Z 0). rewrite <- Zle_Qle. lia. }
    change (inject_Z 1) with 1.
    nra.
Qed.

Lemma inject_Z_nonneg (z : Z) : (0 <= z)%Z -> 0 <= inject_Z z.
Proof. intros H. change 0 with (inject_Z 0). now rewrite <- Zle_Qle. Qed.

Lemma inject_Z_pos (z : Z) : (0 < z)%Z -> 0 < inject_Z z.
Proof. intros H. change 0 with (inject_Z 0). now rewrite <- Zlt_Qlt. Qed.

(** ** The accumulation loop of [sip_simulation] *)

Section SipLoop.

Variables (m r : Q) (n : Z).

(** The body of the [for] loop, for [months = n]. *)
Let body : Q -> Z -> result Q :=
  fun future_value i =>
    p <- Py.pow (1 + r) (n - i + 1) ;;
    Ok (future_value + m * p).

(** Running the loop over the indices [j+1 .. j+len] adds a geometric
    segment; stated without division so that it also covers [r == 0]. *)
Lemma sip_loop_segment (len j : nat) (s : Q) :
  (Z.of_nat j + Z.of_nat len <= n)%Z ->
  exists s',
    Py.for_each (map (fun k => (1 + Z.of_nat k)%Z) (seq j len)) body s = Ok s' /\
    s' * r ==
    s * r + m * ((1 + r) ^ (n - Z.of_nat j + 1)
                 - (1 + r) ^ (n - Z.of_nat j - Z.of_nat len + 1)).
Proof.
  revert j s. induction len as [|len IH]; intros j s Hb.
  - exists s. split; [reflexivity|].
    replace (n - Z.of_nat j - Z.of_nat 0 + 1)%Z with (n - Z.of_nat j + 1)%Z by lia.
    ring.
  - cbn [seq map Py.for_each]. unfold body at 1.
    rewrite pow_nonneg by lia. cbn [bind].
    destruct (IH (S j) (s + m * (1 + r) ^ (n - (1 + Z.of_nat j) + 1))) as (s' & Hrun & Hs');
      [lia|].
    exists s'. split; [exact Hrun|].
    rewrite Hs'.
    replace (n - (1 + Z.of_nat j) + 1)%Z with (n - Z.of_nat j)%Z by lia.
    replace (n - Z.of_nat (S j) + 1)%Z with (n - Z.of_nat j)%Z by lia.
    replace (n - Z.of_nat (S j) - Z.of_nat len + 1)%Z
      with (n - Z.of_nat j - Z.of_nat (S len) + 1)%Z by lia.
    rewrite (Qpower_succ (1 + r) (n - Z.of_nat j)) by lia.
    ring.
Qed.

(** With a zero rate every month adds exactly the contribution. *)
Lemma sip_loop_flat (len j : nat) (s : Q) :
  r == 0 ->
  (Z.of_nat j + Z.of_nat len <= n)%Z ->
  exists s',
    Py.for_each (map (fun k => (1 + Z.of_nat k)%Z) (seq j len)) body s = Ok s' /\
    s' == s + m * inject_Z (Z.of_nat len).
Proof.
  intros Hr. revert j s. induction len as [|len IH]; intros j s Hb.
  - exists s. split; [reflexivity|]. change (inject_Z (Z.of_nat 0)) with 0. ring.
  - cbn [seq map Py.for_each]. unfold body at 1.
    rewrite pow_nonneg by lia. cbn [bind].
    destruct (IH (S j) (s + m * (1 + r) ^ (n - (1 + Z.of_nat j) + 1))) as (s' & Hrun & Hs');
      [lia|].
    exists s'. split; [exact Hrun|].
    rewrite Hs', Nat2Z.inj_succ. unfold Z.succ. rewrite inject_Z_plus.
    assert (H1 : (1 + r) ^ (n - (1 + Z.of_nat j) + 1) == 1).
    { rewrite Hr. setoid_replace (1 + 0) with 1 by ring. apply Qpower_1. }
    rewrite H1. change (inject_Z 1) with 1. ring.
Qed.

End SipLoop.

Lemma Qnonzero_12 : ~ 12 == 0.
Proof. lra. Qed.

Lemma Qnonzero_100 : ~ 100 == 0.
Proof. lra. Qed.

(** [sip_simulation] always returns; its future value [v] satisfies the
    geometric-sum identity [v * r == m * ((1+r)^(n+1) - (1+r))]. *)
Lemma sip_simulation_run (m rate : Q) (y : Z) :
  (0 <= y)%Z ->
  exists v,
    sip_simulation m rate y = Ok (m * 12 * inject_Z y, v) /\
    v * (rate / 12 / 100) ==
    m * ((1 + rate / 12 / 100) ^ (y * 12 + 1) - (1 + rate / 12 / 100)).
Proof.
  intros Hy. unfold sip_simulation.
  rewrite (truediv_ok rate 12 Qnonzero_12). cbn [bind].
  rewrite (truediv_ok (rate / 12) 100 Qnonzero_100). cbn [bind].
  unfold Py.range.
  destruct (sip_loop_segment m (rate / 12 / 100) (y * 12)
              (Z.to_nat (y * 12 + 1 - 1)) 0 0) as (v & Hrun & Hv); [lia|].
  exists v. rewrite Hrun. cbn [bind]. split; [reflexivity|].
  rewrite Hv.
  replace (y * 12 - Z.of_nat 0 + 1)%Z with (y * 12 + 1)%Z by lia.
  replace (y * 12 - Z.of_nat 0 - Z.of_nat (Z.to_nat (y * 12 + 1 - 1)) + 1)%Z
    with 1%Z by lia.
  rewrite Qpower_1_r. ring.
Qed.

Lemma sip_simulation_flat (m rate : Q) (y : Z) :
  (0 <= y)%Z -> rate == 0 ->
  exists v,
    sip_simulation m rate y = Ok (m * 12 * inject_Z y, v) /\
    v == m * 12 * inject_Z y.
Proof.
  intros Hy Hr. unfold sip_simulation.
  rewrite (truediv_ok rate 12 Qnonzero_12). cbn [bind].
  rewrite (truediv_ok (rate / 12) 100 Qnonzero_100). cbn [bind].
  unfold Py.range.
  destruct (sip_loop_flat m (rate / 12 / 100) (y * 12)
              (Z.to_nat (y * 12 + 1 - 1)) 0 0) as (v & Hrun & Hv);
    [rewrite Hr; reflexivity | lia |].
  exists v. rewrite Hrun. cbn [bind]. split; [reflexivity|].
  rewrite Hv, Z2Nat.id by lia.
  replace (y * 12 + 1 - 1)%Z with (y * 12)%Z by lia.
  rewrite inject_Z_mult. change (inject_Z 12) with 12. ring.
Qed.

(** The closed-form expression of the page returns whenever the rate is
    not zero and the horizon is not negative, and then equals the formula. *)
Lemma future_value_run (m rate : Q) (n : Z) :
  ~ rate == 0 -> (0 <= n)%Z ->
  future_value m rate n =
  Ok (m * (((1 + rate / 100 / 12) ^ n - 1) / (rate / 100 / 12))).
Proof.
  intros Hr Hn. unfold future_value.
  rewrite (truediv_ok rate 100 Qnonzero_100). cbn [bind].
  rewrite (truediv_ok (rate / 100) 12 Qnonzero_12). cbn [bind].
  rewrite pow_nonneg by exact Hn. cbn [bind].
  rewrite truediv_ok; [reflexivity|].
  intros H. apply Hr. 
  setoid_replace rate with (rate / 100 / 12 * 1200) by field.
  rewrite H. ring.
Qed.

Lemma future_value_zero_rate (m rate : Q) (n : Z) :
  rate == 0 -> (0 <= n)%Z ->
  future_value m rate n = Raise ZeroDivisionError.
Proof.
  intros Hr Hn. unfold future_value.
  rewrite (truediv_ok rate 100 Qnonzero_100). cbn [bind].
  rewrite (truediv_ok (rate / 100) 12 Qnonzero_12). cbn [bind].
  rewrite pow_nonneg by exact Hn. cbn [bind].
  rewrite truediv_zero; [reflexivity|].
  rewrite Hr. reflexivity.
Qed.

Lemma future_value_run_pos (m rate : Q) (n : Z) :
  0 < rate ->
  future_value m rate n =
  Ok (m * (((1 + rate / 100 / 12) ^ n - 1) / (rate / 100 / 12))).
Proof.
  intros Hr. unfold future_value.
  rewrite (truediv_ok rate 100 Qnonzero_100). cbn [bind].
  rewrite (truediv_ok (rate / 100) 12 Qnonzero_12). cbn [bind].
  assert (Hd : 0 < rate / 100 / 12).
  { setoid_replace (rate / 100 / 12) with (rate * (1 # 1200)) by field. nra. }
  rewrite pow_nonzero by lra. cbn [bind].
  rewrite truediv_ok by lra. reflexivity.
Qed.

(** The page's expression is the closed form of the specification. *)
Lemma future_value_closed_form (m rate : Q) (n : Z) :
  ~ rate == 0 ->
  m * (((1 + rate / 100 / 12) ^ n - 1) / (rate / 100 / 12)) == closed_form m rate n.
Proof.
  intros Hr. unfold closed_form. cbv zeta.
  setoid_replace (rate / 100 / 12) with (rate / 12 / 100) by field.
  field. exact Hr.
Qed.

Lemma annuity_due_closed_form (m rate : Q) (n : Z) :
  ~ rate == 0 ->
  annuity_due m rate n == (1 + rate / 12 / 100) * closed_form m rate n.
Proof.
  intros Hr. unfold annuity_due, closed_form. cbv zeta. field. exact Hr.
Qed.

(** The loop of [sip_simulation] sums to the annuity-due closed form. *)
Lemma sip_simulation_annuity_due (m rate : Q) (y : Z) :
  ~ rate == 0 -> (0 <= y)%Z ->
  exists v,
    sip_simulation m rate y = Ok (m * 12 * inject_Z y, v) /\
    v == annuity_due m rate (12 * y).
Proof.
  intros Hr Hy.
  destruct (sip_simulation_run m rate y Hy) as (v & Hrun & Hv).
  exists v. split; [exact Hrun|].
  assert (Hd : ~ rate / 12 / 100 == 0).
  { intros H. apply Hr.
    setoid_replace rate with (rate / 12 / 100 * 1200) by field.
    rewrite H. ring. }
  apply (Qmult_inj_r _ _ (rate / 12 / 100) Hd).
  rewrite Hv. unfold annuity_due. cbv zeta.
  replace (12 * y)%Z with (y * 12)%Z by lia.
  rewrite Qpower_succ by lia.
  field. exact Hr.
Qed.

(** For a positive rate and a positive horizon the closed form is at least
    the amount paid in, and positive. *)
Lemma closed_form_lower_bound (m rate : Q) (n : Z) :
  0 < m -> 0 < rate -> (0 <= n)%Z ->
  m * inject_Z n <= closed_form m rate n.
Proof.
  intros Hm Hr Hn. unfold closed_form. cbv zeta.
  assert (Hd : 0 < rate / 12 / 100).
  { setoid_replace (rate / 12 / 100) with (rate * (1 # 1200)) by field. nra. }
  pose proof (bernoulli (rate / 12 / 100) (Z.to_nat n) (Qlt_le_weak _ _ Hd)) as B.
  rewrite Z2Nat.id in B by exact Hn.
  set (r := rate / 12 / 100) in *.
  set (p := (1 + r) ^ n) in *.
  setoid_replace (m * (p - 1) / r) with (m * ((p - 1) / r)) by (field; lra).
  apply Qmult_le_l; [exact Hm|].
  apply Qle_shift_div_l; [exact Hd|]. lra.
Qed.

Lemma monthly_rate_pos (rate : Q) : 0 < rate -> 0 < rate / 12 / 100.
Proof.
  intros Hr. setoid_replace (rate / 12 / 100) with (rate * (1 # 1200)) by field. nra.
Qed.

Lemma closed_form_pos (m rate : Q) (n : Z) :
  0 < m -> 0 < rate -> (0 < n)%Z -> 0 < closed_form m rate n.
Proof.
  intros Hm Hr Hn.
  apply Qlt_le_trans with (m * inject_Z n).
  - pose proof (inject_Z_pos n Hn). nra.
  - apply closed_form_lower_bound; [assumption|assumption|lia].
Qed.

(** Inside the SIP panel's ranges everything is positive. *)
Lemma sip_inputs_pos (m rate : Q) (y : Z) :
  sip_inputs_in_range m rate y -> 0 < m /\ 0 < rate /\ (0 < y)%Z.
Proof. intros ([Hm _] & [Hr _] & [Hy _]). repeat split; try lra; lia. Qed.

(** The monthly rate the SIP panel can produce: 1/1200 to 1/60. *)
Lemma sip_monthly_rate_bounds (rate : Q) :
  1 <= rate -> rate <= 20 ->
  (1 # 1200) <= rate / 12 / 100 /\ rate / 12 / 100 <= (1 # 60).
Proof.
  intros H1 H2.
  setoid_replace (rate / 12 / 100) with (rate * (1 # 1200)) by field.
  split; lra.
Qed.


(** * The code on binary64 numbers, at sample inputs *)

(** The call can fail.  At 1200 percent a year over 90 years the first
    power of the loop is [2.0 ** 1080], beyond the binary64 range, and the
    call raises [OverflowError].  The theorems below stay inside the
    widgets' ranges, where no power comes near that. *)
Lemma sip_simulation64_overflow :
  sip_simulation64 5000 1200 90 = Raise OverflowError.
Proof. vm_compute. reflexivity. Qed.

(** At a zero rate every power is [1.0 ** e = 1.0]: with a whole-number
    contribution the sums are exact and the loop returns the total. *)
Lemma sip_simulation64_zero_rate :
  sip_simulation64 5000 0 20 = Ok (1200000, 1200000)%float.
Proof. vm_compute. reflexivity. Qed.

(** * Growth projection *)




(** C1, as the specification states it, fails: for a contribution of 5000
    at 12 percent over one year the loop and the closed form differ by
    about one percent, far more than a relative 1e-6. *)
Lemma paths_disagree_at_12_percent : ~ paths_agree (1 # 1000000) 5000 12 1.
Proof.
  intros (t & v & c & Hs & Hf & Ha).
  vm_compute in Hs. vm_compute in Hf.
  injection Hs as <- <-. injection Hf as <-.
  vm_compute in Ha. apply Ha. reflexivity.
Qed.

(** C1, amended.  For the inputs the SIP panel accepts both computations
    return, the closed-form value is positive, and the loop's value exceeds
    it by about the fraction [r = rate/12/100] of it (between 0.99 and
    1.01 times [r * c]): the two never agree within a relative 1e-6.  At a
    zero rate the closed-form expression raises [ZeroDivisionError], so
    there is nothing to compare. *)
Theorem paths_differ_by_monthly_rate (m rate : Q) (y : Z) :
  sip_inputs_in_range m rate y ->
  exists v c,
    sip_simulation m rate y = Ok (m * 12 * inject_Z y, v) /\
    future_value m rate (12 * y) = Ok c /\
    0 < c /\
    (99 # 100) * (rate / 12 / 100 * c) <= v - c /\
    v - c <= (101 # 100) * (rate / 12 / 100 * c) /\
    ~ agree_within (1 # 1000000) v c /\
    future_value m 0 (12 * y) = Raise ZeroDivisionError.
Proof.
  intros H. destruct (sip_inputs_pos m rate y H) as (Hm & Hr & Hy).
  destruct H as (_ & [Hr1 Hr2] & _).
  assert (Hr0 : ~ rate == 0) by lra.
  destruct (sip_simulation_annuity_due m rate y Hr0) as (v & Hrun & Hv); [lia|].
  exists v, (m * (((1 + rate / 100 / 12) ^ (12 * y) - 1) / (rate / 100 / 12))).
  split; [exact Hrun|].
  split; [apply future_value_run_pos; exact Hr|].
  rewrite annuity_due_closed_form in Hv by exact Hr0.
  rewrite <- future_value_closed_form in Hv by exact Hr0.
  pose proof (closed_form_pos m rate (12 * y) Hm Hr ltac:(lia)) as Hc.
  rewrite <- future_value_closed_form in Hc by exact Hr0.
  destruct (sip_monthly_rate_bounds rate Hr1 Hr2) as [Hd1 Hd2].
  assert (Hz : future_value m 0 (12 * y) = Raise ZeroDivisionError)
    by (apply future_value_zero_rate; [reflexivity|lia]).
  clear Hrun.
  remember (m * (((1 + rate / 100 / 12) ^ (12 * y) - 1) / (rate / 100 / 12))) as c eqn:Ec.
  remember (rate / 12 / 100) as r eqn:Er.
  clear Ec Er.
  assert (Hvc : v - c == r * c) by (rewrite Hv; ring).
  assert (Hrc : 0 < r * c) by nra.
  split; [exact Hc|].
  split; [rewrite Hvc; lra|].
  split; [rewrite Hvc; lra|].
  split; [|exact Hz].
  unfold agree_within. intros Ha.
  rewrite Hvc in Ha.
  rewrite (Qabs_pos (r * c)) in Ha by lra.
  rewrite (Qabs_pos v) in Ha by (rewrite Hv; nra).
  rewrite (Qabs_pos c) in Ha by lra.
  rewrite (Q.max_l v c) in Ha by (rewrite Hv; nra).
  rewrite Hv in Ha. nra.
Qed.

Lemma paths_differ_by_monthly_rate_witness :
  exists v c,
    sip_simulation 5000 12 1 = Ok (5000 * 12 * inject_Z 1, v) /\
    future_value 5000 12 (12 * 1) = Ok c /\
    0 < c /\
    (99 # 100) * (12 / 12 / 100 * c) <= v - c /\
    v - c <= (101 # 100) * (12 / 12 / 100 * c) /\
    ~ agree_within (1 # 1000000) v c /\
    future_value 5000 0 (12 * 1) = Raise ZeroDivisionError.
Proof.
  apply (paths_differ_by_monthly_rate 5000 12 1).
  unfold sip_inputs_in_range. repeat split; try lia; discriminate.
Defined.

(** C2, as the specification states it, fails on the numbers the code
    computes with.  [sip_simulation] takes any numbers: called with a zero
    rate and a contribution of 0.1 for one year, its loop adds 0.1 twelve
    times and returns 1.2, while the total [0.1 * 12 * 1] is
    1.2000000000000002.  And the closed-form expression has no case for a
    zero rate: evaluated there it divides by zero. *)
Lemma zero_rate_sum_is_not_total :
  sip_simulation64 0.1 0 1 = Ok (1.2000000000000002, 1.2)%float /\
  ~ zero_rate_returns_total64 0.1 1 /\
  future_value64 0.1 0 12 = Raise ZeroDivisionError.
Proof.
  assert (E : sip_simulation64 0.1 0 1 = Ok (1.2000000000000002, 1.2)%float)
    by (vm_compute; reflexivity).
  split; [exact E|].
  split; [|vm_compute; reflexivity].
  intros (t & v & Hs & Hv).
  rewrite E in Hs. injection Hs as <- <-.
  vm_compute in Hv. discriminate Hv.
Qed.

(** C2, amended.  At a zero rate and for a whole-number contribution (the
    SIP panel gives 1000 to 100000, for 1 to 40 years) [sip_simulation]
    returns a future value equal to the amount paid in.  The closed-form
    expression of the page has no special case for a zero rate: evaluated
    there it raises [ZeroDivisionError].  No division by zero occurs on the
    page because the sliders that feed the expression (5 to 15 and 4 to 9
    percent) never give a zero rate: for every in-range sidebar both
    headline values are computed. *)
Theorem zero_rate_behaviour (k y : Z) (s : Sidebar) :
  (1000 <= k <= 100000)%Z -> (1 <= y <= 40)%Z -> sidebar_in_range s ->
  (exists v,
     sip_simulation (inject_Z k) 0 y = Ok (inject_Z k * 12 * inject_Z y, v) /\
     v == inject_Z (k * 12 * y)) /\
  future_value (inject_Z k) 0 (12 * y) = Raise ZeroDivisionError /\
  (exists e t, future_value_equity s = Ok e /\
               future_value_traditional s = Ok t).
Proof.
  intros Hk Hy (_ & _ & _ & [He _] & [Ht _]). split; [|split].
  - destruct (sip_simulation_flat (inject_Z k) 0 y) as (v & Hrun & Hv);
      [lia|reflexivity|].
    exists v. split; [exact Hrun|].
    rewrite Hv, !inject_Z_mult. reflexivity.
  - apply future_value_zero_rate; [reflexivity|lia].
  - unfold future_value_equity, future_value_traditional.
    do 2 eexists. split; apply future_value_run_pos; lra.
Qed.

Lemma zero_rate_behaviour_witness :
  (exists v,
     sip_simulation (inject_Z 5000) 0 1 =
       Ok (inject_Z 5000 * 12 * inject_Z 1, v) /\
     v == inject_Z (5000 * 12 * 1)) /\
  future_value (inject_Z 5000) 0 (12 * 1) = Raise ZeroDivisionError /\
  (exists e t, future_value_equity default_sidebar = Ok e /\
               future_value_traditional default_sidebar = Ok t).
Proof.
  apply (zero_rate_behaviour 5000 1 default_sidebar); [lia|lia|].
  unfold sidebar_in_range, default_sidebar. cbn.
  repeat split; try lia; discriminate.
Defined.





(** C7, as the specification states it, fails: the future value of the
    run is more than 45,000 away from 4,949,800, which no rounding of the
    figure explains. *)
Lemma scenario_future_value_is_not_4949800 : ~ scenario_5000_12_20 45000.
Proof.
  intros (t & v & Hs & _ & Hv).
  destruct (sip_simulation_annuity_due 5000 12 20) as (v' & Hrun & Hv');
    [lra|lia|].
  rewrite Hrun in Hs. injection Hs as _ <-.
  rewrite Hv' in Hv. vm_compute in Hv. apply Hv. reflexivity.
Qed.

(** C7, amended.  The run with contribution 5000, rate 12 percent and 20
    years returns a total of 1,200,000 and a future value of about
    4,995,740 (between 4,995,739 and 4,995,740); and for every input the
    SIP panel accepts the call returns, with the total
    contribution * 12 * years. *)
Theorem scenario_5000_12_20_values (m rate : Q) (y : Z) :
  sip_inputs_in_range m rate y ->
  (exists t v,
     sip_simulation 5000 12 20 = Ok (t, v) /\
     t == 1200000 /\
     4995739 < v /\ v < 4995740) /\
  (exists v, sip_simulation m rate y = Ok (m * 12 * inject_Z y, v)).
Proof.
  intros H. destruct (sip_inputs_pos m rate y H) as (_ & _ & Hy). split.
  - destruct (sip_simulation_annuity_due 5000 12 20) as (v & Hrun & Hv);
      [lra|lia|].
    exists (5000 * 12 * inject_Z 20), v.
    split; [exact Hrun|]. split; [reflexivity|].
    rewrite Hv. split; vm_compute; reflexivity.
  - destruct (sip_simulation_run m rate y) as (v & Hrun & _); [lia|].
    exists v. exact Hrun.
Qed.

Lemma scenario_5000_12_20_values_witness :
  (exists t v,
     sip_simulation 5000 12 20 = Ok (t, v) /\
     t == 1200000 /\
     4995739 < v /\ v < 4995740) /\
  (exists v, sip_simulation 10000 12 20 = Ok (10000 * 12 * inject_Z 20, v)).
Proof.
  apply (scenario_5000_12_20_values 10000 12 20).
  unfold sip_inputs_in_range. repeat split; try lia; discriminate.
Defined.

(** * Post-retirement income *)

(** C3.  For a positive corpus, annuity rate and monthly withdrawal
    [post_retirement_income_models] returns the annuity
    [corpus * rate / 100] and the horizon [corpus / (withdrawal * 12)];
    for a zero withdrawal it raises [ZeroDivisionError].  A corpus of
    1,000,000 at 6 percent with 10,000 a month gives 60,000 a year and
    about 8.33 years. *)
Theorem post_retirement_income_models_spec (corpus rate w : Q) :
  0 < corpus -> 0 < rate -> 0 <= w ->
  (0 < w ->
   exists a h,
     post_retirement_income_models corpus rate w = Ok (a, h) /\
     a == corpus * (rate / 100) /\
     h == corpus / (w * 12)) /\
  (w == 0 ->
   post_retirement_income_models corpus rate w = Raise ZeroDivisionError) /\
  (exists a h,
     post_retirement_income_models 1000000 6 10000 = Ok (a, h) /\
     a == 60000 /\
     Qabs (h - (833 # 100)) <= 5 # 1000).
Proof.
  intros Hc Hr Hw. split; [|split].
  - intros Hw'. unfold post_retirement_income_models.
    rewrite (truediv_ok _ 100 Qnonzero_100). cbn [bind].
    rewrite truediv_ok by lra. cbn [bind].
    do 2 eexists. split; [reflexivity|]. split; [field|reflexivity].
  - intros Hw'. unfold post_retirement_income_models.
    rewrite (truediv_ok _ 100 Qnonzero_100). cbn [bind].
    rewrite truediv_zero; [reflexivity|]. rewrite Hw'. reflexivity.
  - do 2 eexists. split; [vm_compute; reflexivity|].
    split; [reflexivity|]. vm_compute. discriminate.
Qed.

Lemma post_retirement_income_models_spec_witness :
  (0 < 10000 ->
   exists a h,
     post_retirement_income_models 1000000 6 10000 = Ok (a, h) /\
     a == 1000000 * (6 / 100) /\
     h == 1000000 / (10000 * 12)) /\
  (10000 == 0 ->
   post_retirement_income_models 1000000 6 10000 = Raise ZeroDivisionError) /\
  (exists a h,
     post_retirement_income_models 1000000 6 10000 = Ok (a, h) /\
     a == 60000 /\
     Qabs (h - (833 # 100)) <= 5 # 1000).
Proof.
  apply (post_retirement_income_models_spec 1000000 6 10000);
    [reflexivity|reflexivity|discriminate].
Defined.

(** * Tax benefit *)

Lemma py_min_Qmin (a b : Q) : Py.min a b == Qmin a b.
Proof.
  unfold Py.min. destruct (Qle_bool a b) eqn:E.
  - apply Qle_bool_iff in E. symmetry. apply Q.min_l. exact E.
  - assert (H : b <= a).
    { destruct (Qlt_le_dec b a) as [H|H]; [apply Qlt_le_weak; exact H|].
      apply Qle_bool_iff in H. congruence. }
    symmetry. apply Q.min_r. exact H.
Qed.

(** C4.  [tax_benefits] returns the investment capped at 150000 and 30
    percent of that amount, so the eligible amount never exceeds 150000;
    an investment of 200000 gives 150000 and 45000. *)
Theorem tax_benefits_spec (investment : Q) :
  0 <= investment ->
  fst (tax_benefits investment) == Qmin investment 150000 /\
  snd (tax_benefits investment) == (30 # 100) * Qmin investment 150000 /\
  fst (tax_benefits investment) <= 150000 /\
  fst (tax_benefits 200000) == 150000 /\
  snd (tax_benefits 200000) == 45000.
Proof.
  intros _. unfold tax_benefits. cbn [fst snd].
  split; [apply py_min_Qmin|].
  split; [rewrite py_min_Qmin; ring|].
  split; [rewrite py_min_Qmin; apply Q.le_min_r|].
  split; reflexivity.
Qed.

Lemma tax_benefits_spec_witness :
  fst (tax_benefits 100000) == Qmin 100000 150000 /\
  snd (tax_benefits 100000) == (30 # 100) * Qmin 100000 150000 /\
  fst (tax_benefits 100000) <= 150000 /\
  fst (tax_benefits 200000) == 150000 /\
  snd (tax_benefits 200000) == 45000.
Proof.
  apply (tax_benefits_spec 100000). discriminate.
Defined.

(** * Horizon *)

(** C5, as the specification states it, fails: the widgets accept a
    current age of 60 with a retirement age of 50, and the horizon is then
    -120 months. *)
Lemma horizon_can_be_negative :
  sidebar_in_range late_sidebar /\ (months late_sidebar < 0)%Z.
Proof.
  split.
  - unfold sidebar_in_range, late_sidebar. cbn.
    repeat split; try lia; discriminate.
  - reflexivity.
Qed.

(** C5, amended.  For ages inside the widgets' ranges the horizon
    [(retirement_age - age) * 12] lies between -120 and 624 months, and it
    is non-negative exactly when the current age does not exceed the
    retirement age. *)
Theorem horizon_in_range (s : Sidebar) :
  sidebar_in_range s ->
  (-120 <= months s <= 624)%Z /\
  ((0 <= months s)%Z <-> (age s <= retirement_age s)%Z).
Proof.
  intros (Ha & Hr & _). unfold months. split; [lia|]. split; lia.
Qed.

Lemma horizon_in_range_witness :
  (-120 <= months default_sidebar <= 624)%Z /\
  ((0 <= months default_sidebar)%Z <->
   (age default_sidebar <= retirement_age default_sidebar)%Z).
Proof.
  apply (horizon_in_range default_sidebar).
  unfold sidebar_in_range, default_sidebar. cbn.
  repeat split; try lia; discriminate.
Defined.

(** * Comparison table *)

(** C9.  Whatever the inputs, the comparison table has exactly four rows,
    named Equity Mutual Fund, Public Provident Fund (PPF), Employees
    Provident Fund (EPF) and National Pension Scheme (NPS). *)
Theorem df_comparison_fixed (s : Sidebar) :
  List.length (df_comparison s) = 4%nat /\
  map Option_name (df_comparison s) =
    ["Equity Mutual Fund"; "Public Provident Fund (PPF)";
     "Employees Provident Fund (EPF)"; "National Pension Scheme (NPS)"]%string /\
  df_comparison s = df_comparison default_sidebar.
Proof. repeat split. Qed.

(** * Year-by-year growth *)

Lemma comprehension_map {A B : Type} (f : A -> result B) (g : A -> B) (xs : list A) :
  (forall x, In x xs -> f x = Ok (g x)) ->
  Py.comprehension f xs = Ok (map g xs).
Proof.
  induction xs as [|x xs IH]; intros H; [reflexivity|].
  cbn [Py.comprehension map].
  rewrite (H x (or_introl eq_refl)). cbn [bind].
  rewrite IH by (intros z Hz; apply H; right; exact Hz).
  reflexivity.
Qed.

Lemma combine_map_same {A B C : Type} (f : A -> B) (g : A -> C) (l : list A) :
  combine (map f l) (map g l) = map (fun x => (f x, g x)) l.
Proof. induction l as [|x l IH]; [reflexivity|]. cbn. now rewrite IH. Qed.

Lemma range_index (lo hi : Z) (k : nat) :
  (Z.of_nat k < hi - lo)%Z ->
  nth_error (Py.range lo hi) k = Some (lo + Z.of_nat k)%Z.
Proof.
  intros Hk. unfold Py.range.
  rewrite nth_error_map, nth_error_seq.
  destruct (Nat.ltb_spec k (Z.to_nat (hi - lo))) as [_|H]; [reflexivity|lia].
Qed.

Lemma In_range (lo hi x : Z) : In x (Py.range lo hi) -> (lo <= x < hi)%Z.
Proof.
  unfold Py.range. intros H. apply in_map_iff in H as (k & <- & Hk).
  apply in_seq in Hk. lia.
Qed.

Lemma growth_value_run (m rate : Q) (i : Z) :
  ~ rate == 0 -> (0 <= i)%Z ->
  growth_value m rate i =
  Ok (m * (((1 + rate / 100 / 12) ^ (i * 12) - 1) / (rate / 100 / 12))).
Proof.
  intros Hr Hi. unfold growth_value.
  rewrite (truediv_ok rate 100 Qnonzero_100). cbn [bind].
  rewrite (truediv_ok (rate / 100) 12 Qnonzero_12). cbn [bind].
  rewrite pow_nonneg by lia. cbn [bind].
  rewrite truediv_ok; [reflexivity|].
  intros H. apply Hr.
  setoid_replace rate with (rate / 100 / 12 * 1200) by field.
  rewrite H. ring.
Qed.

(** Each element of the growth lists is the page's closed-form expression
    at twelve times its index. *)
Lemma growth_value_future_value (m rate : Q) (i : Z) :
  ~ rate == 0 -> (0 <= i)%Z ->
  growth_value m rate i = future_value m rate (12 * i).
Proof.
  intros Hr Hi.
  rewrite growth_value_run, future_value_run by (assumption || lia).
  replace (i * 12)%Z with (12 * i)%Z by lia. reflexivity.
Qed.

(** A growth column, once known to be computed. *)
Lemma growth_column (m rate : Q) (n : nat) :
  ~ rate == 0 ->
  Py.comprehension (growth_value m rate) (Py.range 0 (Z.of_nat n)) =
  Ok (map (fun k => m * (((1 + rate / 100 / 12) ^ (Z.of_nat k * 12) - 1)
                         / (rate / 100 / 12)))
          (seq 0 n)).
Proof.
  intros Hr.
  rewrite (comprehension_map _
             (fun i => m * (((1 + rate / 100 / 12) ^ (i * 12) - 1)
                            / (rate / 100 / 12)))).
  - unfold Py.range. rewrite map_map.
    replace (Z.to_nat (Z.of_nat n - 0)) with n by lia.
    reflexivity.
  - intros x Hx. apply In_range in Hx. apply growth_value_run; [exact Hr|lia].
Qed.

(** The rows of the growth frame for a ticked checkbox. *)
Lemma df_growth_rows (s : Sidebar) :
  ~ estimated_return_equity s == 0 ->
  ~ estimated_return_traditional s == 0 ->
  df_growth s true =
  Ok (map (fun k =>
             ((age s + Z.of_nat k)%Z,
              monthly_investment s *
              (((1 + estimated_return_equity s / 100 / 12) ^ (Z.of_nat k * 12) - 1)
               / (estimated_return_equity s / 100 / 12)),
              monthly_investment s *
              (((1 + estimated_return_traditional s / 100 / 12) ^ (Z.of_nat k * 12) - 1)
               / (estimated_return_traditional s / 100 / 12))))
          (seq 0 (Z.to_nat (retirement_age s + 1 - age s)))).
Proof.
  intros He Ht. unfold df_growth, equity_growth, traditional_growth.
  unfold Py.len, years. rewrite range_length.
  rewrite !growth_column by assumption. cbn [bind].
  unfold Py.range. rewrite !combine_map_same. reflexivity.
Qed.

(** C8, as the specification states it, fails: the widgets accept a
    current age of 60 with a retirement age of 50; the growth frame is then
    empty, which is neither [50 - 60 + 1 = -9] rows nor a frame with a last
    row, while the two headline values are still computed. *)
Lemma growth_series_empty_after_retirement :
  sidebar_in_range late_sidebar /\
  df_growth late_sidebar true = Ok [] /\
  (retirement_age late_sidebar - age late_sidebar + 1 = -9)%Z /\
  ~ growth_series_claim late_sidebar.
Proof.
  assert (E : df_growth late_sidebar true = Ok []).
  { rewrite df_growth_rows by (cbn; discriminate). reflexivity. }
  split.
  { unfold sidebar_in_range, late_sidebar. cbn.
    repeat split; try lia; discriminate. }
  split; [exact E|]. split; [reflexivity|].
  intros (rows & fe & ft & Hrows & Hlen & _).
  rewrite E in Hrows. injection Hrows as <-.
  cbn in Hlen. discriminate Hlen.
Qed.

(** C8, amended.  For every in-range sidebar the growth frame has
    [max 0 (retirement_age - age + 1)] rows; row [k] carries the year
    [age + k] and the value of the page's closed-form expression after
    [12 * k] months at the equity rate and at the traditional rate.  When
    the current age does not exceed the retirement age that is
    [retirement_age - age + 1] rows, one per year from the current age to
    the retirement age, and the last row carries the two headline future
    values; when the retirement age is below the current age the frame is
    empty. *)
Theorem df_growth_series (s : Sidebar) :
  sidebar_in_range s ->
  exists rows,
    df_growth s true = Ok rows /\
    List.length rows = Z.to_nat (Z.max 0 (retirement_age s - age s + 1)) /\
    (forall k, (0 <= k <= retirement_age s - age s)%Z ->
       exists ev tv,
         nth_error rows (Z.to_nat k) = Some ((age s + k)%Z, ev, tv) /\
         future_value (monthly_investment s) (estimated_return_equity s) (12 * k)
           = Ok ev /\
         future_value (monthly_investment s) (estimated_return_traditional s) (12 * k)
           = Ok tv) /\
    ((age s <= retirement_age s)%Z ->
       Z.of_nat (List.length rows) = (retirement_age s - age s + 1)%Z /\
       exists fe ft,
         future_value_equity s = Ok fe /\
         future_value_traditional s = Ok ft /\
         nth_error rows (Z.to_nat (retirement_age s - age s))
           = Some (retirement_age s, fe, ft)) /\
    ((retirement_age s < age s)%Z -> rows = []).
Proof.
  intros (_ & _ & _ & [He' _] & [Ht' _]).
  assert (He : ~ estimated_return_equity s == 0) by lra.
  assert (Ht : ~ estimated_return_traditional s == 0) by lra.
  clear He' Ht'.
  assert (Hrow : forall k, (0 <= k <= retirement_age s - age s)%Z ->
    nth_error
      (map (fun k =>
             ((age s + Z.of_nat k)%Z,
              monthly_investment s *
              (((1 + estimated_return_equity s / 100 / 12) ^ (Z.of_nat k * 12) - 1)
               / (estimated_return_equity s / 100 / 12)),
              monthly_investment s *
              (((1 + estimated_return_traditional s / 100 / 12) ^ (Z.of_nat k * 12) - 1)
               / (estimated_return_traditional s / 100 / 12))))
          (seq 0 (Z.to_nat (retirement_age s + 1 - age s))))
      (Z.to_nat k)
    = Some ((age s + k)%Z,
            monthly_investment s *
            (((1 + estimated_return_equity s / 100 / 12) ^ (12 * k) - 1)
             / (estimated_return_equity s / 100 / 12)),
            monthly_investment s *
            (((1 + estimated_return_traditional s / 100 / 12) ^ (12 * k) - 1)
             / (estimated_return_traditional s / 100 / 12)))).
  { intros k Hk. rewrite nth_error_map, nth_error_seq.
    destruct (Nat.ltb_spec (Z.to_nat k) (Z.to_nat (retirement_age s + 1 - age s)))
      as [_|H]; [|lia].
    cbn [option_map Nat.add]. rewrite Z2Nat.id by lia.
    replace (k * 12)%Z with (12 * k)%Z by lia. reflexivity. }
  eexists.
  split; [apply df_growth_rows; assumption|].
  split; [rewrite length_map, length_seq; lia|].
  split; [|split].
  - intros k Hk. do 2 eexists.
    split; [apply Hrow; exact Hk|].
    split; apply future_value_run; (assumption || lia).
  - intros Hage. split; [rewrite length_map, length_seq; lia|].
    do 2 eexists.
    split; [apply future_value_run; [assumption|unfold months; lia]|].
    split; [apply future_value_run; [assumption|unfold months; lia]|].
    rewrite Hrow by lia. unfold months.
    replace (age s + (retirement_age s - age s))%Z with (retirement_age s) by lia.
    replace (12 * (retirement_age s - age s))%Z
      with ((retirement_age s - age s) * 12)%Z by lia.
    reflexivity.
  - intros Hage.
    replace (Z.to_nat (retirement_age s + 1 - age s)) with 0%nat by lia.
    reflexivity.
Qed.

Lemma df_growth_series_witness :
  exists rows,
    df_growth default_sidebar true = Ok rows /\
    List.length rows =
      Z.to_nat (Z.max 0 (retirement_age default_sidebar - age default_sidebar + 1)) /\
    (forall k, (0 <= k <= retirement_age default_sidebar - age default_sidebar)%Z ->
       exists ev tv,
         nth_error rows (Z.to_nat k) = Some ((age default_sidebar + k)%Z, ev, tv) /\
         future_value (monthly_investment default_sidebar)
           (estimated_return_equity default_sidebar) (12 * k) = Ok ev /\
         future_value (monthly_investment default_sidebar)
           (estimated_return_traditional default_sidebar) (12 * k) = Ok tv) /\
    ((age default_sidebar <= retirement_age default_sidebar)%Z ->
       Z.of_nat (List.length rows) =
         (retirement_age default_sidebar - age default_sidebar + 1)%Z /\
       exists fe ft,
         future_value_equity default_sidebar = Ok fe /\
         future_value_traditional default_sidebar = Ok ft /\
         nth_error rows
           (Z.to_nat (retirement_age default_sidebar - age default_sidebar))
           = Some (retirement_age default_sidebar, fe, ft)) /\
    ((retirement_age default_sidebar < age default_sidebar)%Z -> rows = []).
Proof.
  apply (df_growth_series default_sidebar).
  unfold sidebar_in_range, default_sidebar. cbn.
  repeat split; try lia; discriminate.
Defined.

(** * Further properties of the SIP simulation *)



Lemma annuity_due_increasing (m rate : Q) (n1 n2 : Z) :
  0 < m -> 0 < rate -> (n1 < n2)%Z ->
  annuity_due m rate n1 < annuity_due m rate n2.
Proof.
  intros Hm Hr Hn. unfold annuity_due. cbv zeta.
  pose proof (monthly_rate_pos rate Hr) as Hd.
  pose proof (Qpower_lt_compat_l (1 + rate / 12 / 100) n1 n2 Hn ltac:(lra)) as Hp.
  remember (rate / 12 / 100) as r eqn:Er.
  remember ((1 + r) ^ n1) as p1 eqn:E1.
  remember ((1 + r) ^ n2) as p2 eqn:E2.
  clear Er E1 E2.
  apply Qlt_shift_div_l; [exact Hd|].
  setoid_replace (m * (1 + r) * (p1 - 1) / r * r)
    with (m * (1 + r) * (p1 - 1)) by (field; lra).
  assert (Hk : 0 < m * (1 + r)) by nra.
  apply Qmult_lt_l; [exact Hk|lra].
Qed.

(** X3.  For the inputs the SIP panel accepts, investing strictly gains: the
    future value exceeds the amount paid in, and a longer run ends with a
    strictly larger future value. *)
Theorem sip_simulation_gains (m rate : Q) (y1 y2 : Z) :
  sip_inputs_in_range m rate y1 -> sip_inputs_in_range m rate y2 ->
  (y1 < y2)%Z ->
  exists v1 v2,
    sip_simulation m rate y1 = Ok (m * 12 * inject_Z y1, v1) /\
    sip_simulation m rate y2 = Ok (m * 12 * inject_Z y2, v2) /\
    m * 12 * inject_Z y1 < v1 /\
    m * 12 * inject_Z y2 < v2 /\
    v1 < v2.
Proof.
  intros H1 H2 Hy.
  destruct (sip_inputs_pos m rate y1 H1) as (Hm & Hr & Hy1).
  destruct (sip_inputs_pos m rate y2 H2) as (_ & _ & Hy2).
  assert (Hr0 : ~ rate == 0) by lra.
  destruct (sip_simulation_annuity_due m rate y1 Hr0) as (v1 & Hrun1 & Hv1); [lia|].
  destruct (sip_simulation_annuity_due m rate y2 Hr0) as (v2 & Hrun2 & Hv2); [lia|].
  exists v1, v2. split; [exact Hrun1|]. split; [exact Hrun2|].
  pose proof (monthly_rate_pos rate Hr) as Hd.
  assert (Hgain : forall y, (0 < y)%Z ->
            m * 12 * inject_Z y < annuity_due m rate (12 * y)).
  { intros y Hy0.
    pose proof (closed_form_lower_bound m rate (12 * y) Hm Hr ltac:(lia)) as Hc.
    pose proof (closed_form_pos m rate (12 * y) Hm Hr ltac:(lia)) as Hp.
    rewrite inject_Z_mult in Hc. change (inject_Z 12) with 12 in Hc.
    rewrite annuity_due_closed_form by exact Hr0. nra. }
  split; [rewrite Hv1; apply Hgain; lia|].
  split; [rewrite Hv2; apply Hgain; lia|].
  rewrite Hv1, Hv2. apply annuity_due_increasing; [assumption|assumption|lia].
Qed.

Lemma sip_simulation_gains_witness :
  exists v1 v2,
    sip_simulation 5000 12 1 = Ok (5000 * 12 * inject_Z 1, v1) /\
    sip_simulation 5000 12 2 = Ok (5000 * 12 * inject_Z 2, v2) /\
    5000 * 12 * inject_Z 1 < v1 /\
    5000 * 12 * inject_Z 2 < v2 /\
    v1 < v2.
Proof.
  apply (sip_simulation_gains 5000 12 1 2); [| |lia];
    unfold sip_inputs_in_range; repeat split; try lia; discriminate.
Defined.

(** * Further properties of the tax estimate *)

(** X4.  For an investment the tax widget accepts (0 to 500000) the eligible
    amount lies between 0 and 150000 and the tax saved between 0 and 45000;
    up to the limit the whole investment is eligible, from the limit on the
    saving stays at 45000. *)
Theorem tax_benefits_bounds (investment : Q) :
  tax_input_in_range investment ->
  (0 <= fst (tax_benefits investment) /\ fst (tax_benefits investment) <= 150000) /\
  (0 <= snd (tax_benefits investment) /\ snd (tax_benefits investment) <= 45000) /\
  (investment <= 150000 ->
   fst (tax_benefits investment) == investment /\
   snd (tax_benefits investment) == investment * (3 # 10)) /\
  (150000 <= investment ->
   fst (tax_benefits investment) == 150000 /\
   snd (tax_benefits investment) == 45000).
Proof.
  intros [Hlo Hhi]. unfold tax_benefits. cbn [fst snd].
  pose proof (py_min_Qmin investment 150000) as Hmin.
  pose proof (Q.le_min_r investment 150000) as Hr.
  pose proof (Q.le_min_l investment 150000) as Hl.
  assert (H0 : 0 <= Qmin investment 150000).
  { apply Q.min_glb; [exact Hlo|discriminate]. }
  rewrite Hmin.
  split; [split; assumption|].
  split; [split; lra|].
  split; intros H.
  - rewrite (Q.min_l investment 150000 H). split; reflexivity.
  - rewrite (Q.min_r investment 150000 H). split; reflexivity.
Qed.

Lemma tax_benefits_bounds_witness :
  (0 <= fst (tax_benefits 100000) /\ fst (tax_benefits 100000) <= 150000) /\
  (0 <= snd (tax_benefits 100000) /\ snd (tax_benefits 100000) <= 45000) /\
  (100000 <= 150000 ->
   fst (tax_benefits 100000) == 100000 /\
   snd (tax_benefits 100000) == 100000 * (3 # 10)) /\
  (150000 <= 100000 ->
   fst (tax_benefits 100000) == 150000 /\
   snd (tax_benefits 100000) == 45000).
Proof.
  apply (tax_benefits_bounds 100000). split; discriminate.
Defined.

(** X5.  A larger investment never lowers the eligible amount or the tax saved,
    and the saving never exceeds 30 percent of a non-negative investment. *)
Theorem tax_benefits_monotone (i1 i2 : Q) :
  0 <= i1 -> i1 <= i2 ->
  fst (tax_benefits i1) <= fst (tax_benefits i2) /\
  snd (tax_benefits i1) <= snd (tax_benefits i2) /\
  snd (tax_benefits i2) <= i2 * (3 # 10).
Proof.
  intros H0 H. unfold tax_benefits. cbn [fst snd].
  rewrite !py_min_Qmin.
  assert (Hm : Qmin i1 150000 <= Qmin i2 150000).
  { apply Q.min_le_compat_r. exact H. }
  pose proof (Q.le_min_l i2 150000) as Hl.
  split; [exact Hm|]. split; lra.
Qed.

Lemma tax_benefits_monotone_witness :
  fst (tax_benefits 100000) <= fst (tax_benefits 200000) /\
  snd (tax_benefits 100000) <= snd (tax_benefits 200000) /\
  snd (tax_benefits 200000) <= 200000 * (3 # 10).
Proof.
  apply (tax_benefits_monotone 100000 200000); discriminate.
Defined.

(** * Further properties of the income model *)

(** X8.  For every input the income panel's widgets accept, the call returns:
    the annuity lies between 1,000 and 10,000,000 and the horizon between
    one month (1/12 year) and 8333 1/3 years. *)
Theorem post_retirement_in_range (corpus rate w : Q) :
  income_inputs_in_range corpus rate w ->
  exists a h,
    post_retirement_income_models corpus rate w = Ok (a, h) /\
    (1000 <= a /\ a <= 10000000) /\
    ((1 # 12) <= h /\ h <= 25000 # 3).
Proof.
  intros ([Hc1 Hc2] & [Hr1 Hr2] & [Hw1 Hw2]).
  unfold post_retirement_income_models.
  rewrite (truediv_ok _ 100 Qnonzero_100). cbn [bind].
  rewrite truediv_ok by lra. cbn [bind].
  do 2 eexists. split; [reflexivity|]. split; split.
  - apply Qle_shift_div_l; [reflexivity|]. nra.
  - apply Qle_shift_div_r; [reflexivity|]. nra.
  - apply Qle_shift_div_l; [lra|]. lra.
  - apply Qle_shift_div_r; [lra|]. lra.
Qed.

Lemma post_retirement_in_range_witness :
  exists a h,
    post_retirement_income_models 1000000 6 10000 = Ok (a, h) /\
    (1000 <= a /\ a <= 10000000) /\
    ((1 # 12) <= h /\ h <= 25000 # 3).
Proof.
  apply (post_retirement_in_range 1000000 6 10000).
  repeat split; discriminate.
Defined.

(** * Further properties of the page summary *)

(** X9.  With the retirement age at or above the current age, an in-range
    sidebar gives a non-negative total investment, and both headline
    future values are computed and at least that total. *)
Theorem headline_at_least_invested (s : Sidebar) :
  sidebar_in_range s -> (age s <= retirement_age s)%Z ->
  exists fe ft,
    future_value_equity s = Ok fe /\
    future_value_traditional s = Ok ft /\
    0 <= total_investment s /\
    total_investment s <= fe /\
    total_investment s <= ft.
Proof.
  intros (_ & _ & Hm & [He _] & [Ht _]) Hage.
  unfold future_value_equity, future_value_traditional, total_investment.
  assert (Hn : (0 <= months s)%Z) by (unfold months; lia).
  pose proof (inject_Z_nonneg (months s) Hn) as Hq.
  do 2 eexists.
  split; [apply future_value_run_pos; lra|].
  split; [apply future_value_run_pos; lra|].
  split; [nra|].
  rewrite !future_value_closed_form by lra.
  split; apply closed_form_lower_bound; try lra; exact Hn.
Qed.

Lemma headline_at_least_invested_witness :
  exists fe ft,
    future_value_equity default_sidebar = Ok fe /\
    future_value_traditional default_sidebar = Ok ft /\
    0 <= total_investment default_sidebar /\
    total_investment default_sidebar <= fe /\
    total_investment default_sidebar <= ft.
Proof.
  apply (headline_at_least_invested default_sidebar).
  - unfold sidebar_in_range, default_sidebar. cbn.
    repeat split; try lia; discriminate.
  - cbn. lia.
Defined.

Lemma closed_form_negative (m rate : Q) (n : Z) :
  0 < m -> 0 < rate -> (n < 0)%Z -> closed_form m rate n < 0.
Proof.
  intros Hm Hr Hn. unfold closed_form. cbv zeta.
  pose proof (monthly_rate_pos rate Hr) as Hd.
  pose proof (Qpower_lt_compat_l (1 + rate / 12 / 100) n 0 Hn ltac:(lra)) as Hp.
  change ((1 + rate / 12 / 100) ^ 0) with 1 in Hp.
  remember (rate / 12 / 100) as r eqn:Er.
  remember ((1 + r) ^ n) as p eqn:Ep.
  clear Er Ep.
  apply Qlt_shift_div_r; [exact Hd|]. nra.
Qed.

(** X10.  The widgets also accept a retirement age below the current age.  The
    page then goes on with a negative horizon: the total investment and
    both headline future values are negative, and the growth frame has no
    rows even with the checkbox ticked. *)
Theorem headline_negative_horizon (s : Sidebar) :
  sidebar_in_range s -> (retirement_age s < age s)%Z ->
  exists fe ft,
    future_value_equity s = Ok fe /\
    future_value_traditional s = Ok ft /\
    total_investment s < 0 /\
    fe < 0 /\
    ft < 0 /\
    df_growth s true = Ok [].
Proof.
  intros (_ & _ & Hm & [He _] & [Ht _]) Hage.
  unfold future_value_equity, future_value_traditional, total_investment.
  assert (Hn : (months s < 0)%Z) by (unfold months; lia).
  assert (Hq : inject_Z (months s) < 0).
  { change 0 with (inject_Z 0). rewrite <- Zlt_Qlt. exact Hn. }
  do 2 eexists.
  split; [apply future_value_run_pos; lra|].
  split; [apply future_value_run_pos; lra|].
  split; [nra|].
  rewrite !future_value_closed_form by lra.
  split; [apply closed_form_negative; try lra; exact Hn|].
  split; [apply closed_form_negative; try lra; exact Hn|].
  rewrite df_growth_rows by lra.
  replace (Z.to_nat (retirement_age s + 1 - age s)) with 0%nat by lia.
  reflexivity.
Qed.

Lemma headline_negative_horizon_witness :
  exists fe ft,
    future_value_equity late_sidebar = Ok fe /\
    future_value_traditional late_sidebar = Ok ft /\
    total_investment late_sidebar < 0 /\
    fe < 0 /\
    ft < 0 /\
    df_growth late_sidebar true = Ok [].
Proof.
  apply (headline_negative_horizon late_sidebar).
  - unfold sidebar_in_range, late_sidebar. cbn.
    repeat split; try lia; discriminate.
  - cbn. lia.
Defined.

(** * Further properties of the growth frame *)






(** * The exported workbook *)

Lemma empty_map_seq {A : Type} (f : nat -> A) (n : nat) :
  empty (map f (seq 0 n)) = (n =? 0)%nat.
Proof. destruct n; reflexivity. Qed.

(** X14.  For every in-range sidebar the export succeeds.  The workbook starts
    with the Summary sheet (total investment, equity and traditional future
    value, in this order) and ends with the Option Comparison sheet; the
    Growth Over Time sheet sits between them exactly when the checkbox is
    ticked and the current age does not exceed the retirement age. *)
Theorem excel_summary_sheets (s : Sidebar) (checkbox : bool) :
  sidebar_in_range s ->
  exists wb fe ft,
    excel_summary s checkbox = Ok wb /\
    future_value_equity s = Ok fe /\
    future_value_traditional s = Ok ft /\
    map fst wb =
      (if checkbox && (age s <=? retirement_age s)%Z
       then ["Summary"; "Growth Over Time"; "Option Comparison"]
       else ["Summary"; "Option Comparison"])%string /\
    hd_error wb =
      Some ("Summary"%string,
            SummarySheet [("Total Investment"%string, total_investment s);
                          ("Equity FV"%string, fe);
                          ("Traditional FV"%string, ft)]) /\
    In ("Option Comparison"%string, ComparisonSheet (df_comparison s)) wb.
Proof.
  intros (_ & _ & _ & [He _] & [Ht _]).
  assert (Hfe := future_value_run_pos (monthly_investment s)
                   (estimated_return_equity s) (months s) ltac:(lra)).
  assert (Hft := future_value_run_pos (monthly_investment s)
                   (estimated_return_traditional s) (months s) ltac:(lra)).
  unfold excel_summary.
  unfold future_value_equity, future_value_traditional.
  rewrite Hfe, Hft. cbn [bind].
  destruct checkbox.
  - rewrite df_growth_rows by lra. cbn [bind andb].
    rewrite empty_map_seq.
    destruct (Z.leb_spec (age s) (retirement_age s)) as [Hage|Hage].
    + replace (Z.to_nat (retirement_age s + 1 - age s) =? 0)%nat with false
        by (symmetry; apply Nat.eqb_neq; lia).
      do 3 eexists. split; [reflexivity|].
      split; [reflexivity|]. split; [reflexivity|].
      split; [reflexivity|]. split; [reflexivity|].
      cbn. right. right. left. reflexivity.
    + replace (Z.to_nat (retirement_age s + 1 - age s) =? 0)%nat with true
        by (symmetry; apply Nat.eqb_eq; lia).
      do 3 eexists. split; [reflexivity|].
      split; [reflexivity|]. split; [reflexivity|].
      split; [reflexivity|]. split; [reflexivity|].
      cbn. right. left. reflexivity.
  - cbn [df_growth bind andb empty negb].
    do 3 eexists. split; [reflexivity|].
    split; [reflexivity|]. split; [reflexivity|].
    split; [reflexivity|]. split; [reflexivity|].
    cbn. right. left. reflexivity.
Qed.

Lemma excel_summary_sheets_witness :
  exists wb fe ft,
    excel_summary default_sidebar true = Ok wb /\
    future_value_equity default_sidebar = Ok fe /\
    future_value_traditional default_sidebar = Ok ft /\
    map fst wb =
      (if true && (age default_sidebar <=? retirement_age default_sidebar)%Z
       then ["Summary"; "Growth Over Time"; "Option Comparison"]
       else ["Summary"; "Option Comparison"])%string /\
    hd_error wb =
      Some ("Summary"%string,
            SummarySheet [("Total Investment"%string, total_investment default_sidebar);
                          ("Equity FV"%string, fe);
                          ("Traditional FV"%string, ft)]) /\
    In ("Option Comparison"%string, ComparisonSheet (df_comparison default_sidebar)) wb.
Proof.
  apply (excel_summary_sheets default_sidebar true).
  unfold sidebar_in_range, default_sidebar. cbn.
  repeat split; try lia; discriminate.
Defined.
